(** * Decoding engine of the adder configuration library

    Shallow embedding of [src/adder.go] (the first copy of the package in
    that file, lines 1-349): the environment resolver [getEnvValue], the
    coercers [setFieldFromString], [setFieldValue] and [setSliceField], and
    the struct binder [unmarshalWithPath].

    Modelling choices:
    - Go reflection is replaced by a description of the target type ([ty])
      next to the current value of the target ([val]); a decode step returns
      the new value together with the [error] result, which is how the
      in-place mutation of the Go code is threaded.
    - The loosely typed YAML values ([any]) keep the dynamic Go types that
      the type switches of the code distinguish ([int], [int64], [uint],
      [uint64], [float64], [string], [bool], [map[string]any], [[]any], nil).
      A finite [float64] is modelled by the rational number it denotes.
    - [map[string]any] is an association list (nested inside [any]); the
      binding table and the process environment are [gmap string string].
    - Strings are ASCII strings; [strings.ToLower] and [strings.ToUpper] act
      on ASCII letters only.
    - The platform is 64-bit: Go [int] and [uint] are 64 bits wide. *)

From Stdlib Require Import ZArith QArith Qround List Bool Ascii String Lia.
From stdpp Require Import base gmap strings.

Set Warnings "-register-all".
Import ListNotations.
Open Scope Z_scope.

(** ** Go integers *)

(** Storing [z] into a signed field of [w] bits ([reflect.Value.SetInt]). *)
Definition wrap_s (w : Z) (z : Z) : Z :=
  let m := z mod 2 ^ w in
  if 2 ^ (w - 1) <=? m then m - 2 ^ w else m.

(** Storing [z] into an unsigned field of [w] bits ([SetUint]). *)
Definition wrap_u (w : Z) (z : Z) : Z := z mod 2 ^ w.

(** Truncation of a float toward zero. *)
Definition qtrunc (q : Q) : Z :=
  if Qle_bool 0 q then Qfloor q else Qceiling q.

(** The conversions [int64(v)] and [uint64(v)] of a [float64]. Out of range
    the Go result is implementation-specific; it is modelled as wrap-around. *)
Definition float64_to_int64 (q : Q) : Z := wrap_s 64 (qtrunc q).
Definition float64_to_uint64 (q : Q) : Z := wrap_u 64 (qtrunc q).

(** ** Data model *)

(** Signed and unsigned integer kinds of [reflect]. *)
Inductive intKind := Int | Int8 | Int16 | Int32 | Int64.
Inductive uintKind := Uint | Uint8 | Uint16 | Uint32 | Uint64.

Definition int_bits (k : intKind) : Z :=
  match k with Int => 64 | Int8 => 8 | Int16 => 16 | Int32 => 32 | Int64 => 64 end.
Definition uint_bits (k : uintKind) : Z :=
  match k with Uint => 64 | Uint8 => 8 | Uint16 => 16 | Uint32 => 32 | Uint64 => 64 end.

(** Target types: the kinds [setFieldValue] switches on; [TOther] stands
    for every other kind (maps, pointers, floats, ...). A struct is its list
    of fields in declaration order; a field has its Go name, its
    [mapstructure] tag ("" when absent), whether it is settable
    ([CanSet]: exported) and its type. *)
Inductive ty :=
| TString
| TInt (k : intKind)
| TUint (k : uintKind)
| TBool
| TSlice (elem : ty)
| TStruct (fs : fields)
| TOther
with fields :=
| FNil
| FCons (f : field) (rest : fields)
with field :=
| Field (name : string) (tag : string) (exported : bool) (t : ty).

(** Values held by a target. *)
Inductive val :=
| VString (s : string)
| VInt (z : Z)
| VUint (z : Z)
| VBool (b : bool)
| VSlice (xs : list val)
| VStruct (vs : list val)
| VOther.

(** Values of the parsed document ([any] after [yaml.Unmarshal]). *)
Inductive any :=
| ANil
| AStr (s : string)
| ABool (b : bool)
| AInt (z : Z)
| AInt64 (z : Z)
| AUint (z : Z)
| AUint64 (z : Z)
| AFloat (q : Q)
| ASeq (xs : list any)
| AMap (m : list (string * any)).

(** [data[key]] on a [map[string]any]. *)
Fixpoint doc_lookup (k : string) (m : list (string * any)) : option any :=
  match m with
  | [] => None
  | (k', x) :: m' => if String.eqb k k' then Some x else doc_lookup k m'
  end.

(** The zero value of a type ([reflect.MakeSlice] fills slices with it). *)
Fixpoint zero_val (t : ty) : val :=
  match t with
  | TString => VString ""
  | TInt _ => VInt 0
  | TUint _ => VUint 0
  | TBool => VBool false
  | TSlice _ => VSlice []
  | TStruct fs => VStruct (zero_fields fs)
  | TOther => VOther
  end
with zero_fields (fs : fields) : list val :=
  match fs with
  | FNil => []
  | FCons (Field _ _ _ t) rest => zero_val t :: zero_fields rest
  end.

(** Errors returned by the decoder. *)
Inductive error :=
| ErrSyntax          (** strconv: invalid syntax *)
| ErrRange           (** strconv: value out of range *)
| ErrNilPointer      (** "unmarshal target must be a non-nil pointer" *)
| ErrNotStruct.      (** "unmarshal target must be a pointer to struct" *)

(** The [Adder] fields read by the decoder. [envReplacer] is [None] for a
    nil [*strings.Replacer], else the replacement it performs. *)
Record adder := {
  envReplacer : option (string -> string);
  autoEnv : bool;
  envBindings : gmap string string;
  configValues : list (string * any)
}.

(** The process environment; [os.Getenv] yields "" for an unset name. *)
Definition environ := gmap string string.

Definition getenv (env : environ) (k : string) : string :=
  default "" (env !! k).

(** ** Strings *)

Definition ascii_lower (c : ascii) : ascii :=
  let n := nat_of_ascii c in
  if (65 <=? n)%nat && (n <=? 90)%nat then ascii_of_nat (n + 32) else c.

Definition ascii_upper (c : ascii) : ascii :=
  let n := nat_of_ascii c in
  if (97 <=? n)%nat && (n <=? 122)%nat then ascii_of_nat (n - 32) else c.

Fixpoint to_lower (s : string) : string :=
  match s with
  | EmptyString => EmptyString
  | String c s' => String (ascii_lower c) (to_lower s')
  end.

Fixpoint to_upper (s : string) : string :=
  match s with
  | EmptyString => EmptyString
  | String c s' => String (ascii_upper c) (to_upper s')
  end.

(** ** strconv *)

Definition is_digit (c : ascii) : bool :=
  let n := nat_of_ascii c in (48 <=? n)%nat && (n <=? 57)%nat.

Definition digit_val (c : ascii) : Z := Z.of_nat (nat_of_ascii c) - 48.

Definition maxUint64 : Z := 2 ^ 64 - 1.

(** The digit loop of [strconv.ParseUint(s, 10, 64)]: [cutoff] is
    [maxUint64/10 + 1]; the check [n1 < n || n1 > maxVal] becomes
    [n1 > maxVal] on unbounded integers. *)
Fixpoint parse_uint_loop (s : string) (n : Z) : Z + error :=
  match s with
  | EmptyString => inl n
  | String c s' =>
      if negb (is_digit c) then inr ErrSyntax
      else if maxUint64 / 10 + 1 <=? n then inr ErrRange
      else let n1 := n * 10 + digit_val c in
           if maxUint64 <? n1 then inr ErrRange
           else parse_uint_loop s' n1
  end.

(** [strconv.ParseUint(s, 10, 64)]. *)
Definition parseUint (s : string) : Z + error :=
  match s with
  | EmptyString => inr ErrSyntax
  | _ => parse_uint_loop s 0
  end.

(** [strconv.ParseInt(s, 10, 64)]. *)
Definition parseInt (s : string) : Z + error :=
  match s with
  | EmptyString => inr ErrSyntax
  | _ =>
      let '(neg, s') :=
        match s with
        | String "+"%char r => (false, r)
        | String "-"%char r => (true, r)
        | _ => (false, s)
        end in
      match parseUint s' with
      | inr e => inr e
      | inl un =>
          if negb neg && (2 ^ 63 <=? un) then inr ErrRange
          else if neg && (2 ^ 63 <? un) then inr ErrRange
          else inl (if neg then - un else un)
      end
  end.

(** ** Environment resolver *)

(** The variable name tried by automatic env: [strings.ToUpper(key)], then
    [a.envReplacer.Replace] when a replacer is set. *)
Definition autoEnvKey (a : adder) (key : string) : string :=
  let envKey := to_upper key in
  match envReplacer a with
  | Some r => r envKey
  | None => envKey
  end.

(** [getEnvValue]. *)
Definition getEnvValue (a : adder) (env : environ) (key : string) : string :=
  let lowerKey := to_lower key in
  match envBindings a !! lowerKey with
  | Some envVar => getenv env envVar
  | None =>
      if autoEnv a then getenv env (autoEnvKey a key) else ""
  end.

(** ** Value coercer *)

(** [setFieldFromString]: the field's new value and the error returned. *)
Definition setFieldFromString (t : ty) (fv : val) (value : string)
  : val * option error :=
  match t with
  | TString => (VString value, None)
  | TInt k =>
      match parseInt value with
      | inr err => (fv, Some err)
      | inl i => (VInt (wrap_s (int_bits k) i), None)
      end
  | TUint k =>
      match parseUint value with
      | inr err => (fv, Some err)
      | inl u => (VUint (wrap_u (uint_bits k) u), None)
      end
  | TBool => (VBool (String.eqb value "true" || String.eqb value "1"), None)
  | _ => (fv, None)
  end.

(** One element of the new slice built by [setSliceField]. *)
Definition slice_elem (elemType : ty) (item : any) : val :=
  match elemType with
  | TString =>
      match item with
      | AStr s => VString s
      | _ => zero_val elemType
      end
  | TInt Int | TInt Int64 =>
      match item with
      | AInt v => VInt v
      | AFloat v => VInt (float64_to_int64 v)
      | _ => zero_val elemType
      end
  | _ => zero_val elemType
  end.

(** [setSliceField]. *)
Definition setSliceField (elemType : ty) (fv : val) (value : any)
  : val * option error :=
  match value with
  | ASeq slice => (VSlice (map (slice_elem elemType) slice), None)
  | _ => (fv, None)
  end.

(** The full dotted key of a field. *)
Definition field_name (name tag : string) : string :=
  if String.eqb tag "" then to_lower name else tag.

Definition full_key (prefix fieldName : string) : string :=
  if String.eqb prefix "" then fieldName
  else String.append prefix (String.append "." fieldName).

(** ** Struct binder

    [setFieldValue], the loop of [unmarshalWithPath] over the fields of a
    struct ([unmarshalFields], returning early on the first error) and its
    body for one field ([fieldStep]). The recursive call
    [a.unmarshalWithPath(m, field.Addr().Interface(), keyPath)] of
    [setFieldValue] always passes the pointer checks of [unmarshalWithPath],
    so it is the loop [unmarshalFields] on the nested struct. *)
Fixpoint setFieldValue (a : adder) (env : environ) (t : ty) (fv : val)
    (value : any) (keyPath : string) {struct t} : val * option error :=
  match value with
  | ANil => (fv, None)
  | _ =>
    match t with
    | TStruct fs =>
        match value, fv with
        | AMap m, VStruct vs =>
            let '(vs', err) := unmarshalFields a env m keyPath fs vs in
            (VStruct vs', err)
        | _, _ => (fv, None)
        end
    | TString =>
        match value with
        | AStr s => (VString s, None)
        | _ => (fv, None)
        end
    | TInt k =>
        match value with
        | AInt v => (VInt (wrap_s (int_bits k) v), None)
        | AInt64 v => (VInt (wrap_s (int_bits k) v), None)
        | AFloat v => (VInt (wrap_s (int_bits k) (float64_to_int64 v)), None)
        | _ => (fv, None)
        end
    | TUint k =>
        match value with
        | AInt v | AInt64 v =>
            if 0 <=? v then (VUint (wrap_u (uint_bits k) v), None)
            else (fv, None)
        | AUint v | AUint64 v => (VUint (wrap_u (uint_bits k) v), None)
        | AFloat v =>
            if Qle_bool 0 v
            then (VUint (wrap_u (uint_bits k) (float64_to_uint64 v)), None)
            else (fv, None)
        | _ => (fv, None)
        end
    | TBool =>
        match value with
        | ABool b => (VBool b, None)
        | _ => (fv, None)
        end
    | TSlice elemType => setSliceField elemType fv value
    | TOther => (fv, None)
    end
  end
with unmarshalFields (a : adder) (env : environ) (data : list (string * any))
    (prefix : string) (fs : fields) (vs : list val) {struct fs}
    : list val * option error :=
  match fs, vs with
  | FCons f rest, fv :: vs0 =>
      let '(fv', err) := fieldStep a env data prefix f fv in
      match err with
      | Some e => (fv' :: vs0, Some e)
      | None =>
          let '(vs', err') := unmarshalFields a env data prefix rest vs0 in
          (fv' :: vs', err')
      end
  | _, _ => (vs, None)
  end
with fieldStep (a : adder) (env : environ) (data : list (string * any))
    (prefix : string) (f : field) (fv : val) {struct f} : val * option error :=
  match f with
  | Field name tag exported t =>
      if negb exported then (fv, None)
      else
        let fieldName := field_name name tag in
        let fullKey := full_key prefix fieldName in
        let envVal := getEnvValue a env fullKey in
        if negb (String.eqb envVal "") then setFieldFromString t fv envVal
        else
          match doc_lookup fieldName data with
          | None => (fv, None)
          | Some configVal => setFieldValue a env t fv configVal fullKey
          end
  end.

(** The argument [v any] of [unmarshalWithPath]: a nil interface, a nil
    pointer, a non-pointer value, or a non-nil pointer to a value. *)
Inductive target :=
| TgtNil
| TgtNilPtr (t : ty)
| TgtValue (t : ty) (v : val)
| TgtPtr (t : ty) (v : val).

(** [unmarshalWithPath]: the target after the call, and the error. *)
Definition unmarshalWithPath (a : adder) (env : environ)
    (data : list (string * any)) (tgt : target) (prefix : string)
    : target * option error :=
  match tgt with
  | TgtPtr (TStruct fs) v =>
      match v with
      | VStruct vs =>
          let '(vs', err) := unmarshalFields a env data prefix fs vs in
          (TgtPtr (TStruct fs) (VStruct vs'), err)
      | _ => (tgt, None)
      end
  | TgtPtr _ _ => (tgt, Some ErrNotStruct)
  | _ => (tgt, Some ErrNilPointer)
  end.

(** [Unmarshal]. *)
Definition Unmarshal (a : adder) (env : environ) (tgt : target)
  : target * option error :=
  unmarshalWithPath a env (configValues a) tgt "".

(** ** Instance setup and loading

    The full [Adder] struct: the file-search settings next to the fields
    read by the decoder ([adder] above). *)
Record Adder := {
  configName : string;
  configType : string;
  configPaths : list string;
  dec : adder
}.

Definition with_dec (st : Adder) (d : adder) : Adder :=
  {| configName := configName st; configType := configType st;
     configPaths := configPaths st; dec := d |}.

(** [New]. *)
Definition New : Adder :=
  {| configName := ""; configType := ""; configPaths := [];
     dec := {| envReplacer := None; autoEnv := false;
               envBindings := ∅; configValues := [] |} |}.

(** [SetConfigName]. *)
Definition SetConfigName (st : Adder) (name : string) : Adder :=
  {| configName := name; configType := configType st;
     configPaths := configPaths st; dec := dec st |}.

(** [SetConfigType]. *)
Definition SetConfigType (st : Adder) (typ : string) : Adder :=
  {| configName := configName st; configType := typ;
     configPaths := configPaths st; dec := dec st |}.

(** [AddConfigPath]: [append(a.configPaths, path)]. *)
Definition AddConfigPath (st : Adder) (path : string) : Adder :=
  {| configName := configName st; configType := configType st;
     configPaths := configPaths st ++ [path]; dec := dec st |}.

(** [SetEnvKeyReplacer]. *)
Definition SetEnvKeyReplacer (st : Adder) (r : option (string -> string))
  : Adder :=
  let d := dec st in
  with_dec st {| envReplacer := r; autoEnv := autoEnv d;
                 envBindings := envBindings d;
                 configValues := configValues d |}.

(** [AutomaticEnv]. *)
Definition AutomaticEnv (st : Adder) : Adder :=
  let d := dec st in
  with_dec st {| envReplacer := envReplacer d; autoEnv := true;
                 envBindings := envBindings d;
                 configValues := configValues d |}.

(** [BindEnv]: [a.envBindings[strings.ToLower(key)] = envVar; return nil]. *)
Definition BindEnv (st : Adder) (key envVar : string) : Adder * option error :=
  let d := dec st in
  (with_dec st {| envReplacer := envReplacer d; autoEnv := autoEnv d;
                  envBindings := <[to_lower key := envVar]> (envBindings d);
                  configValues := configValues d |}, None).

(** Errors of [ReadInConfig]. *)
Inductive readError :=
| ErrNameNotSet          (** "config name not set" *)
| ErrFileNotFound        (** "config file not found: %s.%s" *)
| ErrReadFile            (** "failed to read config file: %w" *)
| ErrParseYaml           (** "failed to parse yaml: %w" *)
| ErrUnsupportedType.    (** "unsupported config type: %s" *)

(** The file system: a path present in the map exists ([os.Stat] succeeds);
    its entry is [Some data] when [os.ReadFile] succeeds, [None] when it
    fails. *)
Definition filesystem := gmap string (option string).

Section Loading.

(** [filepath.Join] of a directory and a file name. *)
Variable join : string -> string -> string.

(** [yaml.Unmarshal(data, &a.configValues)]: the map after the call (the
    decoder writes into the existing map) and whether it failed. *)
Variable yamlUnmarshal :
  string -> list (string * any) -> list (string * any) * bool.

(** The search loop of [ReadInConfig]: the first candidate that exists,
    [""] when none does. *)
Fixpoint search_config (files : filesystem) (file : string)
    (paths : list string) : string :=
  match paths with
  | [] => ""
  | path :: rest =>
      let candidate := join path file in
      match files !! candidate with
      | Some _ => candidate
      | None => search_config files file rest
      end
  end.

(** [ReadInConfig]: the instance after the call and the error returned. *)
Definition ReadInConfig (st : Adder) (files : filesystem)
  : Adder * option readError :=
  if String.eqb (configName st) "" then (st, Some ErrNameNotSet)
  else
    let configFile :=
      search_config files
        (String.append (configName st) (String.append "." (configType st)))
        (configPaths st) in
    if String.eqb configFile "" then (st, Some ErrFileNotFound)
    else
      match files !! configFile with
      | Some (Some data) =>
          if String.eqb (configType st) "yaml"
             || String.eqb (configType st) "yml" then
            let d := dec st in
            let '(m, failed) := yamlUnmarshal data (configValues d) in
            (with_dec st {| envReplacer := envReplacer d; autoEnv := autoEnv d;
                            envBindings := envBindings d;
                            configValues := m |},
             if failed then Some ErrParseYaml else None)
          else (st, Some ErrUnsupportedType)
      | _ => (st, Some ErrReadFile)
      end.

End Loading.

(** ** Fields as a list, and the key of a field *)

Fixpoint fields_list (fs : fields) : list field :=
  match fs with
  | FNil => []
  | FCons f rest => f :: fields_list rest
  end.

(** The dotted path of field [name] (tag [tag]) under [prefix]. *)
Definition field_path (prefix name tag : string) : string :=
  full_key prefix (field_name name tag).

(** ** Configurations of the test suite *)

(** [strings.NewReplacer(".", "_")]. *)
Fixpoint replace_dot (s : string) : string :=
  match s with
  | EmptyString => EmptyString
  | String c s' =>
      String (if Ascii.eqb c "."%char then "_"%char else c) (replace_dot s')
  end.

(** [testConfig] of [adder_test.go]. *)
Definition testLogConfig : ty :=
  TStruct (FCons (Field "Level" "" true TString) FNil).
Definition testHTTPConfig : ty :=
  TStruct (FCons (Field "Port" "" true (TUint Uint)) FNil).
Definition testDBConfig : ty :=
  TStruct (FCons (Field "URL" "url" true TString)
          (FCons (Field "Schema" "" true TString) FNil)).
Definition testConfigFields : fields :=
  FCons (Field "Log" "" true testLogConfig)
  (FCons (Field "Http" "" true testHTTPConfig)
  (FCons (Field "Db" "" true testDBConfig) FNil)).
Definition testConfig : ty := TStruct testConfigFields.

(** The YAML document of [TestAutomaticEnvOverrideFromYAMLDefaults]. *)
Definition yamlDefaults : list (string * any) :=
  [("log", AMap [("level", AStr "info")]);
   ("http", AMap [("port", AInt 8080)]);
   ("db", AMap [("url", AStr "postgres://from-config");
                ("schema", AStr "public")])].

(** An adder with [SetEnvKeyReplacer(".", "_")] and [AutomaticEnv()]. *)
Definition autoEnvAdder (doc : list (string * any)) : adder :=
  {| envReplacer := Some replace_dot; autoEnv := true;
     envBindings := ∅; configValues := doc |}.

(** An adder with the explicit bindings [bs] only. *)
Definition boundAdder (bs : gmap string string) (doc : list (string * any))
  : adder :=
  {| envReplacer := None; autoEnv := false;
     envBindings := bs; configValues := doc |}.

(** [TestBindEnvOverride_MissingSectionInYAML]: [config{Api apiConfig}]
    with [apiConfig{ApiKey string}]. *)
Definition apiConfig : ty :=
  TStruct (FCons (Field "ApiKey" "" true TString) FNil).
Definition apiRootConfig : ty :=
  TStruct (FCons (Field "Api" "" true apiConfig) FNil).

(** [TestCaseInsensitiveYAMLKeys]: [config{BaseURL string}]. *)
Definition baseURLConfig : ty :=
  TStruct (FCons (Field "BaseURL" "" true TString) FNil).

(** [z] is [q] truncated toward zero. *)
Definition trunc_toward_zero (q : Q) (z : Z) : Prop :=
  (0 <= q -> inject_Z z <= q /\ q < inject_Z (z + 1))%Q /\
  (q < 0 -> inject_Z (z - 1) < q /\ q <= inject_Z z)%Q.

(** Mutual induction over target types, field lists and fields. *)
Scheme ty_mut := Induction for ty Sort Prop
with fields_mut := Induction for fields Sort Prop
with field_mut := Induction for field Sort Prop.

(** The plain decimal reading of a string of digits. *)
Fixpoint all_digits (s : string) : bool :=
  match s with
  | EmptyString => true
  | String c s' => is_digit c && all_digits s'
  end.

Fixpoint decimal_acc (s : string) (n : Z) : Z :=
  match s with
  | EmptyString => n
  | String c s' => decimal_acc s' (n * 10 + digit_val c)
  end.

(** Well-typed values: a value of the kind of its type, integers inside
    the range of their width, slices and structs element by element. *)
Definition in_int_range (w z : Z) : bool :=
  (- 2 ^ (w - 1) <=? z) && (z <? 2 ^ (w - 1)).
Definition in_uint_range (w z : Z) : bool := (0 <=? z) && (z <? 2 ^ w).

Fixpoint val_ok (t : ty) (v : val) {struct t} : bool :=
  match t, v with
  | TString, VString _ => true
  | TInt k, VInt z => in_int_range (int_bits k) z
  | TUint k, VUint z => in_uint_range (uint_bits k) z
  | TBool, VBool _ => true
  | TSlice e, VSlice xs => forallb (val_ok e) xs
  | TStruct fs, VStruct vs => fields_ok fs vs
  | TOther, VOther => true
  | _, _ => false
  end
with fields_ok (fs : fields) (vs : list val) {struct fs} : bool :=
  match fs, vs with
  | FNil, [] => true
  | FCons f rest, v :: vs' => field_ok f v && fields_ok rest vs'
  | _, _ => false
  end
with field_ok (f : field) (v : val) {struct f} : bool :=
  match f with Field _ _ _ t => val_ok t v end.

(** Documents as [yaml.Unmarshal] builds them: Go [int], [int64], [uint]
    and [uint64] values are 64-bit. *)
Fixpoint any_ok (x : any) : bool :=
  match x with
  | AInt z | AInt64 z => in_int_range 64 z
  | AUint z | AUint64 z => in_uint_range 64 z
  | ASeq xs => forallb any_ok xs
  | AMap m => forallb (fun kv => any_ok (snd kv)) m
  | _ => true
  end.

Definition doc_ok (m : list (string * any)) : bool :=
  forallb (fun kv => any_ok (snd kv)) m.

(** Instances for the loading examples: [filepath.Join] on clean relative
    directory names, a YAML decoder that stores the file text under the key
    [app], and a small file system. *)
Definition join_slash (dir file : string) : string :=
  String.append dir (String.append "/" file).

Definition yaml_text_stub (data : string) (m : list (string * any))
  : list (string * any) * bool :=
  (("app", AStr data) :: m, false).

Definition testFiles : filesystem :=
  <["etc/application.yaml" := Some "etc"]>
  (<["conf/application.yaml" := Some "conf"]>
   (<["conf/application.yml" := Some "yml"]> ∅)).

Definition loadingAdder (typ : string) (paths : list string) : Adder :=
  fold_left AddConfigPath paths
    (SetConfigType (SetConfigName New "application") typ).

(** ** Helper lemmas *)

Lemma unmarshalFields_cons a env data prefix f rest fv vs :
  unmarshalFields a env data prefix (FCons f rest) (fv :: vs) =
  let '(fv', err) := fieldStep a env data prefix f fv in
  match err with
  | Some e => (fv' :: vs, Some e)
  | None =>
      let '(vs', err') := unmarshalFields a env data prefix rest vs in
      (fv' :: vs', err')
  end.
Proof. reflexivity. Qed.

Lemma wrap_s_small w z :
  0 < w -> - 2 ^ (w - 1) <= z < 2 ^ (w - 1) -> wrap_s w z = z.
Proof.
  intros Hw Hz. unfold wrap_s.
  assert (Hp : 2 ^ w = 2 * 2 ^ (w - 1)).
  { rewrite <- Z.pow_succ_r by lia. f_equal. lia. }
  assert (0 < 2 ^ (w - 1)) by (apply Z.pow_pos_nonneg; lia).
  destruct (Z_le_gt_dec 0 z).
  - rewrite Z.mod_small by lia.
    destruct (2 ^ (w - 1) <=? z) eqn:E; [apply Z.leb_le in E; lia|reflexivity].
  - assert (Hm : z mod 2 ^ w = z + 2 ^ w).
    { rewrite <- (Z.mod_small (z + 2 ^ w) (2 ^ w)) by lia.
      replace (z + 2 ^ w) with (z + 1 * 2 ^ w) by lia.
      rewrite Z.mod_add by lia. reflexivity. }
    rewrite Hm.
    destruct (2 ^ (w - 1) <=? z + 2 ^ w) eqn:E; [lia|apply Z.leb_gt in E; lia].
Qed.

Lemma wrap_u_small w z : 0 <= z < 2 ^ w -> wrap_u w z = z.
Proof. intros Hz. unfold wrap_u. apply Z.mod_small. exact Hz. Qed.

Lemma qtrunc_spec q : trunc_toward_zero q (qtrunc q).
Proof.
  unfold trunc_toward_zero, qtrunc. split.
  - intros Hq. apply Qle_bool_iff in Hq as Hb. rewrite Hb.
    split; [apply Qfloor_le|apply Qlt_floor].
  - intros Hq. destruct (Qle_bool 0 q) eqn:Hb.
    + apply Qle_bool_iff in Hb. exfalso. exact (Qlt_not_le _ _ Hq Hb).
    + split; [apply Qceiling_lt|apply Qle_ceiling].
Qed.

Lemma qtrunc_bounds (lo hi : Z) q :
  lo <= 0 -> 0 < hi ->
  (inject_Z lo <= q)%Q -> (q < inject_Z hi)%Q -> lo <= qtrunc q < hi.
Proof.
  intros Hlo Hhi Hl Hh. unfold qtrunc.
  destruct (Qle_bool 0 q) eqn:Hb.
  - apply Qle_bool_iff in Hb.
    pose proof (Qfloor_resp_le 0 q Hb) as H0. change (Qfloor 0) with 0 in H0.
    pose proof (Qfloor_le q) as H1.
    assert (inject_Z (Qfloor q) < inject_Z hi)%Q by
      (eapply Qle_lt_trans; eassumption).
    rewrite <- Zlt_Qlt in H. lia.
  - assert (Hn : (q <= 0)%Q).
    { apply Qlt_le_weak, Qnot_le_lt. intros Hc.
      apply Qle_bool_iff in Hc. congruence. }
    pose proof (Qceiling_resp_le q 0 Hn) as H0. change (Qceiling 0) with 0 in H0.
    pose proof (Qle_ceiling q) as H1.
    assert (inject_Z lo <= inject_Z (Qceiling q))%Q by
      (eapply Qle_trans; eassumption).
    rewrite <- Zle_Qle in H. lia.
Qed.

Lemma int_bits_range k : 8 <= int_bits k <= 64.
Proof. destruct k; simpl; lia. Qed.

Lemma uint_bits_range k : 8 <= uint_bits k <= 64.
Proof. destruct k; simpl; lia. Qed.

Lemma fieldStep_exported a env data prefix name tag t fv :
  fieldStep a env data prefix (Field name tag true t) fv =
  let envVal := getEnvValue a env (field_path prefix name tag) in
  if negb (String.eqb envVal "") then setFieldFromString t fv envVal
  else match doc_lookup (field_name name tag) data with
       | None => (fv, None)
       | Some x => setFieldValue a env t fv x (field_path prefix name tag)
       end.
Proof. reflexivity. Qed.

Lemma eqb_nonempty (s : string) : s <> "" -> String.eqb s "" = false.
Proof. intros H. apply String.eqb_neq. exact H. Qed.

(** ** Precedence of the override tiers *)

(** C1. For an exported field with dotted path [p]: if [p] has an explicit
    binding whose variable is non-empty, that value is coerced into the
    field, whatever automatic env or the document say; if [p] has no
    explicit binding, automatic env is on and the derived variable is
    non-empty, that value is used, whatever the document says; when neither
    tier yields a value, the document value under the field's key is used. *)
Theorem C1_override_precedence a env data prefix name tag t fv :
  let p := field_path prefix name tag in
  (forall ev, envBindings a !! to_lower p = Some ev -> getenv env ev <> "" ->
     fieldStep a env data prefix (Field name tag true t) fv
     = setFieldFromString t fv (getenv env ev)) /\
  (envBindings a !! to_lower p = None -> autoEnv a = true ->
     getenv env (autoEnvKey a p) <> "" ->
     fieldStep a env data prefix (Field name tag true t) fv
     = setFieldFromString t fv (getenv env (autoEnvKey a p))) /\
  ((forall ev, envBindings a !! to_lower p = Some ev -> getenv env ev = "") ->
   (envBindings a !! to_lower p = None -> autoEnv a = true ->
      getenv env (autoEnvKey a p) = "") ->
   forall x, doc_lookup (field_name name tag) data = Some x ->
     fieldStep a env data prefix (Field name tag true t) fv
     = setFieldValue a env t fv x p).
Proof.
  intros p. rewrite !fieldStep_exported. fold p. unfold getEnvValue.
  split; [|split].
  - intros ev Hb Hne. rewrite Hb. rewrite (eqb_nonempty _ Hne). reflexivity.
  - intros Hb Ha Hne. rewrite Hb, Ha. rewrite (eqb_nonempty _ Hne).
    reflexivity.
  - intros Hexp Hauto x Hx.
    destruct (envBindings a !! to_lower p) as [ev|] eqn:Hb.
    + rewrite (Hexp ev eq_refl). simpl. rewrite Hx. reflexivity.
    + destruct (autoEnv a) eqn:Ha.
      * rewrite (Hauto eq_refl eq_refl). simpl. rewrite Hx. reflexivity.
      * simpl. rewrite Hx. reflexivity.
Qed.

(** Witness of C1: field [Db.URL] of [testConfig], explicit binding
    [db.url -> DATABASE_URL] and automatic env both active, every tier
    supplying a value: the bound variable wins. *)
Lemma C1_override_precedence_witness :
  let a := {| envReplacer := Some replace_dot; autoEnv := true;
              envBindings := {[ "db.url" := "DATABASE_URL" ]};
              configValues := yamlDefaults |} in
  let env : environ := {[ "DATABASE_URL" := "postgres://from-env";
                          "DB_URL" := "postgres://from-auto" ]} in
  envBindings a !! "db.url" = Some "DATABASE_URL" /\
  fieldStep a env [("url", AStr "postgres://from-config")] "db"
    (Field "URL" "url" true TString) (VString "")
  = (VString "postgres://from-env", None).
Proof.
  intros a env. split; [reflexivity|].
  rewrite (proj1 (C1_override_precedence a env
             [("url", AStr "postgres://from-config")] "db" "URL" "url"
             TString (VString "")) "DATABASE_URL").
  - reflexivity.
  - reflexivity.
  - vm_compute. discriminate.
Defined.

(** C10. An explicit binding shadows automatic env: for an exported field
    whose dotted path is bound to [ev], the resolver returns the value of
    [ev] and nothing else, even with automatic env on and the derived
    variable set; when [ev] is unset or empty the field falls back to the
    document value (and is left alone when the document has no entry). *)
Theorem C10_binding_shadows_auto_env a env data prefix name tag t fv ev :
  let p := field_path prefix name tag in
  envBindings a !! to_lower p = Some ev ->
  getEnvValue a env p = getenv env ev /\
  (getenv env ev = "" ->
   fieldStep a env data prefix (Field name tag true t) fv
   = match doc_lookup (field_name name tag) data with
     | None => (fv, None)
     | Some x => setFieldValue a env t fv x p
     end).
Proof.
  intros p Hb.
  assert (Hg : getEnvValue a env p = getenv env ev).
  { unfold getEnvValue. rewrite Hb. reflexivity. }
  split; [exact Hg|].
  intros He. rewrite fieldStep_exported. fold p. rewrite Hg, He. reflexivity.
Qed.

(** Witness of C10: [db.url] bound to the unset [DATABASE_URL], automatic
    env on and [DB_URL] set: the document value is used. *)
Lemma C10_binding_shadows_auto_env_witness :
  let a := {| envReplacer := Some replace_dot; autoEnv := true;
              envBindings := {[ "db.url" := "DATABASE_URL" ]};
              configValues := yamlDefaults |} in
  let env : environ := {[ "DB_URL" := "postgres://from-auto" ]} in
  getEnvValue a env "db.url" = "" /\
  fieldStep a env [("url", AStr "postgres://from-config")] "db"
    (Field "URL" "url" true TString) (VString "")
  = (VString "postgres://from-config", None).
Proof.
  intros a env.
  destruct (C10_binding_shadows_auto_env a env
              [("url", AStr "postgres://from-config")] "db" "URL" "url"
              TString (VString "") "DATABASE_URL" eq_refl) as [H1 H2].
  split.
  - exact H1.
  - rewrite H2; reflexivity.
Defined.

(** C4, counterexample. [db.url] is bound to [DATABASE_URL], which is set
    to the empty string, and the document has [db.url]: the resolver
    returns "", which decode treats as not found, and the document value
    is stored in [Db.URL]. *)
Lemma C4_empty_binding_counterexample :
  let a := boundAdder {[ "db.url" := "DATABASE_URL" ]} yamlDefaults in
  let env : environ := {[ "DATABASE_URL" := "" ]} in
  env !! "DATABASE_URL" = Some "" /\
  getEnvValue a env "db.url" = "" /\
  Unmarshal a env (TgtPtr testConfig (zero_val testConfig))
  = (TgtPtr testConfig
       (VStruct [VStruct [VString "info"]; VStruct [VUint 8080];
                 VStruct [VString "postgres://from-config";
                          VString "public"]]), None).
Proof. vm_compute. repeat split. Qed.

(** C4, as amended. For an exported field whose dotted path is bound to a
    variable that is set to the empty string, the resolver returns "", the
    value is treated as not found, and the field takes the document value
    under its key (or is left unchanged when the document has none). *)
Theorem C4_empty_binding_falls_back a env data prefix name tag t fv ev :
  let p := field_path prefix name tag in
  envBindings a !! to_lower p = Some ev ->
  env !! ev = Some "" ->
  getEnvValue a env p = "" /\
  fieldStep a env data prefix (Field name tag true t) fv
  = match doc_lookup (field_name name tag) data with
    | None => (fv, None)
    | Some x => setFieldValue a env t fv x p
    end.
Proof.
  intros p Hb He.
  assert (Hg : getEnvValue a env p = "").
  { unfold getEnvValue. rewrite Hb. unfold getenv. rewrite He. reflexivity. }
  split; [exact Hg|].
  rewrite fieldStep_exported. fold p. rewrite Hg. reflexivity.
Qed.

(** Witness of C4 (amended): field [Db.URL] with [DATABASE_URL=""]. *)
Lemma C4_empty_binding_falls_back_witness :
  let a := boundAdder {[ "db.url" := "DATABASE_URL" ]} yamlDefaults in
  let env : environ := {[ "DATABASE_URL" := "" ]} in
  getEnvValue a env "db.url" = "" /\
  fieldStep a env [("url", AStr "postgres://from-config")] "db"
    (Field "URL" "url" true TString) (VString "old")
  = (VString "postgres://from-config", None).
Proof.
  intros a env.
  destruct (C4_empty_binding_falls_back a env
              [("url", AStr "postgres://from-config")] "db" "URL" "url"
              TString (VString "old") "DATABASE_URL" eq_refl eq_refl)
    as [H1 H2].
  split.
  - exact H1.
  - rewrite H2; reflexivity.
Defined.

(** ** Sections missing from the document *)

(** C2 (code bug). [TestBindEnvOverride_MissingSectionInYAML]: the document
    has no [api] section, [api.apikey] is bound to [MY_API_KEY] and
    [MY_API_KEY=secret]. Decode skips the field [Api] because its key is
    absent, so [Api.ApiKey] stays "" instead of the bound "secret". *)
Theorem C2_missing_section_skipped :
  Unmarshal (boundAdder {[ "api.apikey" := "MY_API_KEY" ]}
               [("log", AMap [("level", AStr "info")])])
            {[ "MY_API_KEY" := "secret" ]}
            (TgtPtr apiRootConfig (zero_val apiRootConfig))
  = (TgtPtr apiRootConfig (VStruct [VStruct [VString ""]]), None).
Proof. vm_compute. reflexivity. Qed.

(** ** Case of document keys *)

(** C3 (code bug). [TestCaseInsensitiveYAMLKeys]: the document is used as
    parsed, without folding its keys, and a field is looked up under its
    lowercased name; [baseurl] binds to [BaseURL] while [baseUrl] and
    [baseURL] leave it empty. *)
Theorem C3_document_keys_case_sensitive :
  let decode (k : string) :=
    Unmarshal (boundAdder ∅ [(k, AStr "https://example.com")]) ∅
              (TgtPtr baseURLConfig (zero_val baseURLConfig)) in
  decode "baseurl"
  = (TgtPtr baseURLConfig (VStruct [VString "https://example.com"]), None) /\
  decode "baseUrl" = (TgtPtr baseURLConfig (VStruct [VString ""]), None) /\
  decode "baseURL" = (TgtPtr baseURLConfig (VStruct [VString ""]), None).
Proof. vm_compute. repeat split. Qed.

(** ** Invalid targets *)

(** C8. Decode on a target that is not a non-nil pointer to a struct (a
    nil interface, a nil pointer, a non-pointer, or a pointer to a
    non-struct) returns an error and leaves the target as it was. *)
Theorem C8_invalid_target_error a env tgt :
  (forall fs v, tgt <> TgtPtr (TStruct fs) v) ->
  exists e, Unmarshal a env tgt = (tgt, Some e).
Proof.
  intros H. unfold Unmarshal, unmarshalWithPath.
  destruct tgt as [|t|t v|t v]; try (eexists; reflexivity).
  destruct t; try (eexists; reflexivity).
  exfalso. exact (H fs v eq_refl).
Qed.

(** Witness of C8: [testConfig] passed by value. *)
Lemma C8_invalid_target_error_witness :
  exists e, Unmarshal (autoEnvAdder yamlDefaults) ∅
              (TgtValue testConfig (zero_val testConfig))
            = (TgtValue testConfig (zero_val testConfig), Some e).
Proof.
  apply C8_invalid_target_error. intros fs v H. discriminate H.
Defined.

(** ** Coercion of environment strings *)

(** C5. When the resolved environment value [s] of an exported integer
    field is non-empty, it is parsed with [strconv.ParseInt(s, 10, 64)]
    (signed kinds) or [strconv.ParseUint(s, 10, 64)] (unsigned kinds, which
    rejects a leading minus sign); on a parse failure the field keeps its
    value and the error is returned by the struct loop, skipping the fields
    after it. *)
Theorem C5_env_numeric_coercion a env data prefix name tag t fv s :
  getEnvValue a env (field_path prefix name tag) = s -> s <> "" ->
  (forall k, t = TInt k ->
     fieldStep a env data prefix (Field name tag true t) fv
     = match parseInt s with
       | inl i => (VInt (wrap_s (int_bits k) i), None)
       | inr e => (fv, Some e)
       end) /\
  (forall k, t = TUint k ->
     fieldStep a env data prefix (Field name tag true t) fv
     = match parseUint s with
       | inl u => (VUint (wrap_u (uint_bits k) u), None)
       | inr e => (fv, Some e)
       end) /\
  (forall r, parseUint (String "-" r) = inr ErrSyntax) /\
  (forall e rest vs,
     fieldStep a env data prefix (Field name tag true t) fv = (fv, Some e) ->
     unmarshalFields a env data prefix (FCons (Field name tag true t) rest)
       (fv :: vs) = (fv :: vs, Some e)).
Proof.
  intros Hs Hne.
  assert (Hstep : fieldStep a env data prefix (Field name tag true t) fv
                  = setFieldFromString t fv s).
  { rewrite fieldStep_exported. simpl. rewrite Hs, (eqb_nonempty _ Hne).
    reflexivity. }
  split; [|split; [|split]].
  - intros k ->. rewrite Hstep. simpl.
    destruct (parseInt s); reflexivity.
  - intros k ->. rewrite Hstep. simpl.
    destruct (parseUint s); reflexivity.
  - intros r. reflexivity.
  - intros e rest vs He. rewrite unmarshalFields_cons, He. reflexivity.
Qed.

(** Witness of C5: [TestAutomaticEnvOverrideUint_InvalidValue], field
    [Http.Port] with [HTTP_PORT=not-a-number]. *)
Lemma C5_env_numeric_coercion_witness :
  let a := autoEnvAdder yamlDefaults in
  let env : environ := {[ "HTTP_PORT" := "not-a-number" ]} in
  unmarshalFields a env [("port", AInt 8080)] "http"
    (FCons (Field "Port" "" true (TUint Uint)) FNil) [VUint 0]
  = ([VUint 0], Some ErrSyntax).
Proof.
  intros a env.
  destruct (C5_env_numeric_coercion a env [("port", AInt 8080)] "http"
              "Port" "" (TUint Uint) (VUint 0) "not-a-number")
    as [_ [Hu [_ Hloop]]].
  - vm_compute. reflexivity.
  - discriminate.
  - apply Hloop. rewrite (Hu Uint eq_refl). reflexivity.
Defined.

(** ** Coercion of document values *)

(** C6. A negative [int], [int64] or [float64] document value leaves an
    unsigned field unchanged, without error; a [float64] document value
    that fits the field is stored in an integer or unsigned field truncated
    toward zero. *)
Theorem C6_document_numeric_permissive a env fv key :
  (forall k z, z < 0 ->
     setFieldValue a env (TUint k) fv (AInt z) key = (fv, None) /\
     setFieldValue a env (TUint k) fv (AInt64 z) key = (fv, None)) /\
  (forall k q, (q < 0)%Q ->
     setFieldValue a env (TUint k) fv (AFloat q) key = (fv, None)) /\
  (forall k q,
     (inject_Z (- 2 ^ (int_bits k - 1)) <= q)%Q ->
     (q < inject_Z (2 ^ (int_bits k - 1)))%Q ->
     exists z, setFieldValue a env (TInt k) fv (AFloat q) key = (VInt z, None)
               /\ trunc_toward_zero q z) /\
  (forall k q, (0 <= q)%Q -> (q < inject_Z (2 ^ uint_bits k))%Q ->
     exists z, setFieldValue a env (TUint k) fv (AFloat q) key = (VUint z, None)
               /\ trunc_toward_zero q z).
Proof.
  split; [|split; [|split]].
  - intros k z Hz. simpl.
    destruct (0 <=? z) eqn:E; [apply Z.leb_le in E; lia|]. split; reflexivity.
  - intros k q Hq. simpl. destruct (Qle_bool 0 q) eqn:Hb; [|reflexivity].
    apply Qle_bool_iff in Hb. exfalso. exact (Qlt_not_le _ _ Hq Hb).
  - intros k q Hl Hh. exists (qtrunc q). split; [|apply qtrunc_spec].
    pose proof (int_bits_range k) as Hw.
    assert (Hp : 0 < 2 ^ (int_bits k - 1)) by (apply Z.pow_pos_nonneg; lia).
    pose proof (qtrunc_bounds (- 2 ^ (int_bits k - 1)) _ q ltac:(lia) Hp Hl Hh)
      as Hr.
    assert (Hm : 2 ^ (int_bits k - 1) <= 2 ^ (64 - 1))
      by (apply Z.pow_le_mono_r; lia).
    simpl. unfold float64_to_int64.
    rewrite (wrap_s_small 64 (qtrunc q)) by lia.
    rewrite (wrap_s_small (int_bits k) (qtrunc q)) by lia.
    reflexivity.
  - intros k q Hl Hh. exists (qtrunc q). split; [|apply qtrunc_spec].
    pose proof (uint_bits_range k) as Hw.
    assert (Hp : 0 < 2 ^ uint_bits k) by (apply Z.pow_pos_nonneg; lia).
    pose proof (qtrunc_bounds 0 _ q ltac:(lia) Hp Hl Hh) as Hr.
    assert (Hm : 2 ^ uint_bits k <= 2 ^ 64) by (apply Z.pow_le_mono_r; lia).
    simpl. apply Qle_bool_iff in Hl. rewrite Hl. unfold float64_to_uint64.
    rewrite (wrap_u_small 64 (qtrunc q)) by lia.
    rewrite (wrap_u_small (uint_bits k) (qtrunc q)) by lia.
    reflexivity.
Qed.

(** Witness of C6: [-3] into a [uint] field holding 7, and [-2.5] into an
    [int8] field. *)
Lemma C6_document_numeric_permissive_witness :
  setFieldValue (autoEnvAdder []) ∅ (TUint Uint) (VUint 7) (AInt (-3)) "p"
  = (VUint 7, None) /\
  exists z, setFieldValue (autoEnvAdder []) ∅ (TInt Int8) (VInt 0)
              (AFloat (-5 # 2)) "p" = (VInt z, None)
            /\ trunc_toward_zero (-5 # 2) z.
Proof.
  destruct (C6_document_numeric_permissive (autoEnvAdder []) ∅ (VUint 7) "p")
    as [H1 [_ [H3 _]]].
  split.
  - exact (proj1 (H1 Uint (-3) ltac:(lia))).
  - destruct (C6_document_numeric_permissive (autoEnvAdder []) ∅ (VInt 0) "p")
      as [_ [_ [H3' _]]].
    apply (H3' Int8 (-5 # 2));
      vm_compute; first [reflexivity | intros Hc; discriminate Hc].
Defined.

(** ** Sequences *)

(** C7, counterexample. Elements of a slice are not converted by the
    scalar rules of [setFieldValue]: an [int] item becomes 1 in a [uint]
    field but 0 in a [[]uint] element, [true] becomes [true] in a [bool]
    field but [false] in a [[]bool] element, and an [int64] item is stored
    in an [int] field but not in a [[]int] element. *)
Lemma C7_slice_elements_counterexample :
  let a := autoEnvAdder [] in
  setFieldValue a ∅ (TUint Uint) (VUint 0) (AInt 1) "k" = (VUint 1, None) /\
  setFieldValue a ∅ (TSlice (TUint Uint)) (VSlice []) (ASeq [AInt 1]) "k"
  = (VSlice [VUint 0], None) /\
  setFieldValue a ∅ TBool (VBool false) (ABool true) "k"
  = (VBool true, None) /\
  setFieldValue a ∅ (TSlice TBool) (VSlice []) (ASeq [ABool true]) "k"
  = (VSlice [VBool false], None) /\
  setFieldValue a ∅ (TInt Int) (VInt 0) (AInt64 5) "k" = (VInt 5, None) /\
  setFieldValue a ∅ (TSlice (TInt Int)) (VSlice []) (ASeq [AInt64 5]) "k"
  = (VSlice [VInt 0], None).
Proof. vm_compute. repeat split. Qed.

(** C7, as amended. A sequence document value replaces a slice field by a
    slice of the same length, in the same order, whose element [i] depends
    on item [i] alone: a [string] item gives a [string] element, an [int]
    or [float64] item gives an [int]/[int64] element ([float64] truncated
    by [int64(v)]), and every other combination of element kind and item
    gives the zero value of the element type; no error is returned. A
    document value that is not a sequence leaves the field unchanged. *)
Theorem C7_slice_decoding a env et fv key :
  (forall items, exists out,
     setFieldValue a env (TSlice et) fv (ASeq items) key = (VSlice out, None) /\
     length out = length items /\
     forall i item, nth_error items i = Some item ->
       nth_error out i = Some
         (match et, item with
          | TString, AStr s => VString s
          | TInt Int, AInt z | TInt Int64, AInt z => VInt z
          | TInt Int, AFloat q | TInt Int64, AFloat q =>
              VInt (float64_to_int64 q)
          | _, _ => zero_val et
          end)) /\
  (forall x, (forall items, x <> ASeq items) ->
     setFieldValue a env (TSlice et) fv x key = (fv, None)).
Proof.
  split.
  - intros items. exists (map (slice_elem et) items). split; [reflexivity|].
    split; [apply length_map|].
    intros i item Hi. rewrite nth_error_map, Hi. reflexivity.
  - intros x Hs. destruct x; try reflexivity.
    exfalso. exact (Hs xs eq_refl).
Qed.

(** Witness of C7 (amended): [TestUnmarshalStringArrayFromYAML], and a map
    value into a slice field. *)
Lemma C7_slice_decoding_witness :
  setFieldValue (autoEnvAdder []) ∅ (TSlice TString) (VSlice [])
    (AMap []) "app.allowed_origins" = (VSlice [], None) /\
  exists out,
    setFieldValue (autoEnvAdder []) ∅ (TSlice TString) (VSlice [])
      (ASeq [AStr "https://app.local"; AStr "https://admin.local"])
      "app.allowed_origins" = (VSlice out, None) /\
    length out = 2%nat /\
    nth_error out 0 = Some (VString "https://app.local") /\
    nth_error out 1 = Some (VString "https://admin.local").
Proof.
  destruct (C7_slice_decoding (autoEnvAdder []) ∅ TString (VSlice [])
              "app.allowed_origins") as [Hseq Hother].
  split.
  - apply Hother; discriminate.
  - destruct (Hseq [AStr "https://app.local"; AStr "https://admin.local"])
      as [out [Hout [Hlen Hnth]]].
    exists out. split; [exact Hout|]. split; [exact Hlen|].
    split; [exact (Hnth 0%nat _ eq_refl)|exact (Hnth 1%nat _ eq_refl)].
Defined.

(** ** No rollback *)

(** C9. When the field loop of a struct fails, there is a field [n] whose
    step failed: every field before it was decoded without error and holds
    the value its step assigned, field [n] holds what its failing step
    left, and every field after it keeps its value from before the call. *)
Theorem C9_no_rollback a env data prefix fs vs vs' e :
  unmarshalFields a env data prefix fs vs = (vs', Some e) ->
  exists n fv',
    (n < length vs)%nat /\
    (forall j f v, (j < n)%nat ->
       nth_error (fields_list fs) j = Some f -> nth_error vs j = Some v ->
       snd (fieldStep a env data prefix f v) = None /\
       nth_error vs' j = Some (fst (fieldStep a env data prefix f v))) /\
    (exists f v, nth_error (fields_list fs) n = Some f /\
                 nth_error vs n = Some v /\
                 fieldStep a env data prefix f v = (fv', Some e)) /\
    nth_error vs' n = Some fv' /\
    (forall j, (n < j)%nat -> nth_error vs' j = nth_error vs j).
Proof.
  revert vs vs'. induction fs as [|f rest IH]; intros vs vs' H.
  - destruct vs; discriminate H.
  - destruct vs as [|fv vs0]; [discriminate H|].
    rewrite unmarshalFields_cons in H.
    destruct (fieldStep a env data prefix f fv) as [fv1 [e1|]] eqn:Hs.
    + injection H as <- <-. exists 0%nat, fv1.
      split; [simpl; lia|]. split; [intros j; lia|].
      split; [exists f, fv; auto|]. split; [reflexivity|].
      intros [|j] Hj; [lia|reflexivity].
    + destruct (unmarshalFields a env data prefix rest vs0) as [vs1 e2] eqn:Hr.
      injection H as <- ->.
      destruct (IH vs0 vs1 Hr) as [n [fv' [Hlt [Hbefore [Hat [Hn Hafter]]]]]].
      exists (S n), fv'. split; [simpl; lia|].
      split; [|split; [exact Hat|split; [exact Hn|]]].
      * intros [|j] f' v Hj Hf Hv.
        -- simpl in Hf, Hv. injection Hf as <-. injection Hv as <-.
           rewrite Hs. auto.
        -- simpl in Hf, Hv. apply (Hbefore j); auto. lia.
      * intros [|j] Hj; [lia|]. simpl. apply Hafter. lia.
Qed.

(** Witness of C9: [TestAutomaticEnvOverrideUint_InvalidValue] on
    [testConfig]: [Log] is decoded, [Http] fails, [Db] is untouched. *)
Lemma C9_no_rollback_witness :
  exists n fv',
    (n < 3)%nat /\
    nth_error [VStruct [VString "info"]; VStruct [VUint 0];
               VStruct [VString ""; VString ""]] n = Some fv' /\
    (forall j, (n < j)%nat ->
       nth_error [VStruct [VString "info"]; VStruct [VUint 0];
                  VStruct [VString ""; VString ""]] j
       = nth_error (zero_fields testConfigFields) j).
Proof.
  destruct (C9_no_rollback (autoEnvAdder yamlDefaults)
              {[ "HTTP_PORT" := "not-a-number" ]} yamlDefaults ""
              testConfigFields (zero_fields testConfigFields)
              [VStruct [VString "info"]; VStruct [VUint 0];
               VStruct [VString ""; VString ""]] ErrSyntax)
    as [n [fv' [Hlt [_ [_ [Hn Hafter]]]]]].
  - vm_compute. reflexivity.
  - exists n, fv'. split; [exact Hlt|]. split; [exact Hn|exact Hafter].
Defined.

(** ** Setup operations *)





(** X1. After [BindEnv(key, envVar)], every dotted path equal to [key] up
    to letter case resolves to the value of [envVar] (the latest binding of
    that key wins), whatever automatic env says; [BindEnv] returns nil. *)
Theorem X1_bindenv_resolves a key envVar env p :
  to_lower p = to_lower key ->
  snd (BindEnv a key envVar) = None /\
  getEnvValue (dec (fst (BindEnv a key envVar))) env p = getenv env envVar.
Proof.
  intros Hp. split; [reflexivity|].
  unfold getEnvValue. simpl. rewrite Hp, lookup_insert_eq. reflexivity.
Qed.

(** Witness of X1: [BindEnv("DB.URL", "DATABASE_URL")] on an instance with
    automatic env, resolving [db.url]. *)
Lemma X1_bindenv_resolves_witness :
  snd (BindEnv (AutomaticEnv New) "DB.URL" "DATABASE_URL") = None /\
  getEnvValue (dec (fst (BindEnv (AutomaticEnv New) "DB.URL" "DATABASE_URL")))
    {[ "DATABASE_URL" := "x"; "DB_URL" := "y" ]} "db.url" = "x".
Proof.
  exact (X1_bindenv_resolves (AutomaticEnv New) "DB.URL" "DATABASE_URL"
           {[ "DATABASE_URL" := "x"; "DB_URL" := "y" ]} "db.url" eq_refl).
Defined.




(** X4. [SetEnvKeyReplacer] and [AutomaticEnv] compose: on an instance
    without explicit bindings, after both calls (in either order) a key
    resolves to the variable named by the replacer applied to the
    uppercased key. *)
Theorem X4_auto_env_setup st r env key :
  envBindings (dec st) = ∅ ->
  getEnvValue (dec (AutomaticEnv (SetEnvKeyReplacer st (Some r)))) env key
  = getenv env (r (to_upper key)) /\
  getEnvValue (dec (SetEnvKeyReplacer (AutomaticEnv st) (Some r))) env key
  = getenv env (r (to_upper key)).
Proof.
  intros H. unfold getEnvValue, autoEnvKey. simpl. rewrite H.
  rewrite !lookup_empty. split; reflexivity.
Qed.

(** Witness of X4: the replacer [".", "_"] maps [http.port] to
    [HTTP_PORT]. *)
Lemma X4_auto_env_setup_witness :
  getEnvValue (dec (AutomaticEnv (SetEnvKeyReplacer New (Some replace_dot))))
    {[ "HTTP_PORT" := "9091" ]} "http.port"
  = getenv {[ "HTTP_PORT" := "9091" ]} (replace_dot (to_upper "http.port")) /\
  getEnvValue (dec (SetEnvKeyReplacer (AutomaticEnv New) (Some replace_dot)))
    {[ "HTTP_PORT" := "9091" ]} "http.port"
  = getenv {[ "HTTP_PORT" := "9091" ]} (replace_dot (to_upper "http.port")).
Proof. apply X4_auto_env_setup. reflexivity. Defined.

(** ** Decode as a whole *)

Ltac split_ifs :=
  repeat match goal with
         | H : context [if ?c then _ else _] |- _ => destruct c
         | |- context [if ?c then _ else _] => destruct c
         end.

Lemma unmarshalFields_no_source a env prefix fs vs :
  (forall k, getEnvValue a env k = "") ->
  unmarshalFields a env [] prefix fs vs = (vs, None).
Proof.
  intros H. revert vs. induction fs as [|f rest IH]; intros vs.
  - destruct vs; reflexivity.
  - destruct vs as [|fv vs0]; [reflexivity|].
    rewrite unmarshalFields_cons. destruct f as [name tag [] t].
    + rewrite fieldStep_exported. simpl. rewrite H. simpl.
      rewrite IH. reflexivity.
    + simpl. rewrite IH. reflexivity.
Qed.

(** X5. Decoding with a fresh instance ([New]: no file loaded, no
    bindings, no automatic env) leaves any target exactly as it was,
    whatever the process environment holds. *)
Theorem X5_fresh_instance_noop env tgt :
  fst (Unmarshal (dec New) env tgt) = tgt.
Proof.
  assert (H : forall k, getEnvValue (dec New) env k = "") by reflexivity.
  unfold Unmarshal, unmarshalWithPath.
  destruct tgt as [|t|t v|t v]; try reflexivity.
  destruct t; try reflexivity. destruct v; try reflexivity.
  simpl configValues. rewrite unmarshalFields_no_source by exact H.
  reflexivity.
Qed.

Lemma no_env_value_no_error a env :
  (forall k, getEnvValue a env k = "") ->
  forall t fv x key, snd (setFieldValue a env t fv x key) = None.
Proof.
  intros H.
  apply (ty_mut
    (fun t => forall fv x key, snd (setFieldValue a env t fv x key) = None)
    (fun fs => forall data prefix vs,
       snd (unmarshalFields a env data prefix fs vs) = None)
    (fun f => forall data prefix fv,
       snd (fieldStep a env data prefix f fv) = None)).
  - intros fv x key. destruct x; reflexivity.
  - intros k fv x key. destruct x; reflexivity.
  - intros k fv x key. destruct x; simpl; split_ifs; reflexivity.
  - intros fv x key. destruct x; reflexivity.
  - intros elem _ fv x key. destruct x; reflexivity.
  - intros fs IH fv x key. destruct x; try reflexivity.
    destruct fv; try reflexivity. simpl.
    specialize (IH m key vs).
    destruct (unmarshalFields a env m key fs vs). exact IH.
  - intros fv x key. destruct x; reflexivity.
  - intros data prefix vs. destruct vs; reflexivity.
  - intros f IHf rest IHr data prefix vs. destruct vs as [|fv vs0]; [reflexivity|].
    rewrite unmarshalFields_cons. specialize (IHf data prefix fv).
    destruct (fieldStep a env data prefix f fv) as [fv1 [e|]];
      [discriminate IHf|].
    specialize (IHr data prefix vs0).
    destruct (unmarshalFields a env data prefix rest vs0). exact IHr.
  - intros name tag [] t IHt data prefix fv; [|reflexivity].
    rewrite fieldStep_exported. simpl. rewrite H. simpl.
    destruct (doc_lookup (field_name name tag) data); [apply IHt|reflexivity].
Qed.

(** X6. When no environment value applies (every dotted path resolves to
    the empty string), decoding any document into a pointer to a struct
    never returns an error: type mismatches, negative values for unsigned
    fields and missing keys are all skipped silently. *)
Theorem X6_document_only_never_fails a env fs v :
  (forall k, getEnvValue a env k = "") ->
  snd (Unmarshal a env (TgtPtr (TStruct fs) v)) = None.
Proof.
  intros H. unfold Unmarshal, unmarshalWithPath. destruct v; try reflexivity.
  pose proof (no_env_value_no_error a env H (TStruct fs) (VStruct vs)
                (AMap (configValues a)) "") as Hn.
  simpl in Hn. destruct (unmarshalFields a env (configValues a) "" fs vs).
  exact Hn.
Qed.

(** Witness of X6: a document whose values all mismatch [testConfig]. *)
Lemma X6_document_only_never_fails_witness :
  snd (Unmarshal (boundAdder ∅ [("http", AMap [("port", AInt (-1))]);
                                ("log", AStr "x")])
         ∅ (TgtPtr testConfig (zero_val testConfig))) = None.
Proof. apply X6_document_only_never_fails. reflexivity. Defined.

(** X7. A struct-typed field whose own dotted path resolves to a non-empty
    environment value is left unchanged, without error: its section of the
    document and any environment values of its nested fields are ignored. *)
Theorem X7_env_value_on_struct_field a env data prefix name tag fs fv :
  getEnvValue a env (field_path prefix name tag) <> "" ->
  fieldStep a env data prefix (Field name tag true (TStruct fs)) fv = (fv, None).
Proof.
  intros Hne. rewrite fieldStep_exported. simpl.
  rewrite (eqb_nonempty _ Hne). reflexivity.
Qed.

(** Witness of X7: with automatic env, [LOG=x] hides both the document's
    [log.level] and [LOG_LEVEL=debug]. *)
Lemma X7_env_value_on_struct_field_witness :
  fieldStep (autoEnvAdder yamlDefaults) {[ "LOG" := "x"; "LOG_LEVEL" := "debug" ]}
    yamlDefaults "" (Field "Log" "" true testLogConfig) (VStruct [VString ""])
  = (VStruct [VString ""], None).
Proof.
  apply X7_env_value_on_struct_field. vm_compute. discriminate.
Defined.

Lemma setFieldFromString_idem t fv s fv' :
  setFieldFromString t fv s = (fv', None) ->
  setFieldFromString t fv' s = (fv', None).
Proof.
  destruct t; simpl; intros H; try (inversion H; reflexivity).
  - destruct (parseInt s); inversion H; reflexivity.
  - destruct (parseUint s); inversion H; reflexivity.
Qed.

Lemma decode_idem a env :
  forall t fv x key fv',
    setFieldValue a env t fv x key = (fv', None) ->
    setFieldValue a env t fv' x key = (fv', None).
Proof.
  apply (ty_mut
    (fun t => forall fv x key fv',
       setFieldValue a env t fv x key = (fv', None) ->
       setFieldValue a env t fv' x key = (fv', None))
    (fun fs => forall data prefix vs vs',
       unmarshalFields a env data prefix fs vs = (vs', None) ->
       unmarshalFields a env data prefix fs vs' = (vs', None))
    (fun f => forall data prefix fv fv',
       fieldStep a env data prefix f fv = (fv', None) ->
       fieldStep a env data prefix f fv' = (fv', None))).
  - intros fv x key fv' H. destruct x; simpl in H |- *;
      inversion H; subst; reflexivity.
  - intros k fv x key fv' H. destruct x; simpl in H |- *;
      split_ifs; inversion H; subst; reflexivity.
  - intros k fv x key fv' H. destruct x; simpl in H |- *;
      split_ifs; inversion H; subst; reflexivity.
  - intros fv x key fv' H. destruct x; simpl in H |- *;
      inversion H; subst; reflexivity.
  - intros elem _ fv x key fv' H. destruct x; simpl in H |- *;
      inversion H; subst; reflexivity.
  - intros fs IH fv x key fv' H. destruct x;
      try (simpl in H; inversion H; subst; reflexivity).
    destruct fv; try (simpl in H; inversion H; subst; reflexivity).
    simpl in H.
    destruct (unmarshalFields a env m key fs vs) as [vs1 [e|]] eqn:E;
      inversion H; subst.
    simpl. rewrite (IH m key vs vs1 E). reflexivity.
  - intros fv x key fv' H. destruct x; simpl in H |- *;
      inversion H; subst; reflexivity.
  - intros data prefix vs vs' H. destruct vs; inversion H; reflexivity.
  - intros f IHf rest IHr data prefix vs vs' H.
    destruct vs as [|fv vs0]; [inversion H; reflexivity|].
    rewrite unmarshalFields_cons in H.
    destruct (fieldStep a env data prefix f fv) as [fv1 [e|]] eqn:E1;
      [discriminate H|].
    destruct (unmarshalFields a env data prefix rest vs0) as [vs1 [e|]] eqn:E2;
      inversion H; subst.
    rewrite unmarshalFields_cons, (IHf _ _ _ _ E1), (IHr _ _ _ _ E2).
    reflexivity.
  - intros name tag [] t IHt data prefix fv fv' H;
      [|inversion H; reflexivity].
    rewrite fieldStep_exported in H |- *. simpl in H |- *.
    destruct (String.eqb (getEnvValue a env (field_path prefix name tag)) "");
      simpl in H |- *.
    + destruct (doc_lookup (field_name name tag) data);
        [exact (IHt _ _ _ _ H)|inversion H; reflexivity].
    + exact (setFieldFromString_idem _ _ _ _ H).
Qed.

(** X8. Decoding is idempotent: when a decode call succeeds, decoding the
    same instance and environment again into its result changes nothing
    and succeeds. *)
Theorem X8_unmarshal_idempotent a env tgt tgt' :
  Unmarshal a env tgt = (tgt', None) -> Unmarshal a env tgt' = (tgt', None).
Proof.
  unfold Unmarshal, unmarshalWithPath. intros H.
  destruct tgt as [|t|t v|t v]; try discriminate H.
  destruct t; try discriminate H; destruct v; inversion H; subst; try reflexivity.
  destruct (unmarshalFields a env (configValues a) "" fs vs) as [vs1 [e|]] eqn:E;
    inversion H; subst.
  pose proof (decode_idem a env (TStruct fs) (VStruct vs) (AMap (configValues a))
                "" (VStruct vs1)) as Hi.
  simpl in Hi. rewrite E in Hi. specialize (Hi eq_refl).
  destruct (unmarshalFields a env (configValues a) "" fs vs1) as [vs2 e2] eqn:E2.
  inversion Hi; subst. reflexivity.
Qed.

(** Witness of X8: [TestAutomaticEnvOverrideFromYAMLDefaults]. *)
Lemma X8_unmarshal_idempotent_witness :
  Unmarshal (autoEnvAdder yamlDefaults)
    {[ "LOG_LEVEL" := "debug"; "HTTP_PORT" := "9091"; "DB_SCHEMA" := "tenant_alpha" ]}
    (TgtPtr testConfig
       (VStruct [VStruct [VString "debug"]; VStruct [VUint 9091];
                 VStruct [VString "postgres://from-config";
                          VString "tenant_alpha"]]))
  = (TgtPtr testConfig
       (VStruct [VStruct [VString "debug"]; VStruct [VUint 9091];
                 VStruct [VString "postgres://from-config";
                          VString "tenant_alpha"]]), None).
Proof.
  apply (X8_unmarshal_idempotent _ _ (TgtPtr testConfig (zero_val testConfig))).
  vm_compute. reflexivity.
Defined.

(** ** Environment strings for integer fields *)

Lemma digit_val_range c : is_digit c = true -> 0 <= digit_val c <= 9.
Proof.
  unfold is_digit, digit_val. intros H.
  apply andb_true_iff in H as [H1 H2].
  apply Nat.leb_le in H1, H2. lia.
Qed.

Lemma decimal_acc_ge s m :
  all_digits s = true -> 0 <= m -> m <= decimal_acc s m.
Proof.
  revert m. induction s as [|c s IH]; intros m Hd Hm; simpl; [lia|].
  simpl in Hd. apply andb_true_iff in Hd as [Hc Hs].
  pose proof (digit_val_range c Hc).
  specialize (IH (m * 10 + digit_val c) Hs ltac:(lia)). lia.
Qed.

Lemma parse_uint_loop_spec s : forall n m, 0 <= n <= maxUint64 ->
  (parse_uint_loop s n = inl m <->
   all_digits s = true /\ decimal_acc s n = m /\ m <= maxUint64).
Proof.
  assert (Hcut : maxUint64 < (maxUint64 / 10 + 1) * 10) by reflexivity.
  induction s as [|c s IH]; intros n m Hn; simpl.
  - split; [intros H; injection H as <-; repeat split; lia
           |intros [_ [<- Hm]]; reflexivity].
  - destruct (is_digit c) eqn:Hd; simpl.
    + pose proof (digit_val_range c Hd) as Hdv.
      destruct (Z.leb_spec (maxUint64 / 10 + 1) n) as [Hc|Hc].
      * split; [discriminate|]. intros [Hs [Hv Hm]].
        pose proof (decimal_acc_ge s (n * 10 + digit_val c) Hs ltac:(lia)). lia.
      * destruct (Z.ltb_spec maxUint64 (n * 10 + digit_val c)) as [Ho|Ho].
        -- split; [discriminate|]. intros [Hs [Hv Hm]].
           pose proof (decimal_acc_ge s (n * 10 + digit_val c) Hs ltac:(lia)).
           lia.
        -- apply IH. lia.
    + split; [discriminate|]. intros [H _]. discriminate H.
Qed.

Lemma parseUint_spec s m :
  parseUint s = inl m <->
  s <> "" /\ all_digits s = true /\ decimal_acc s 0 = m /\ m <= maxUint64.
Proof.
  destruct s as [|c r].
  - split; [discriminate|]. intros [H _]. congruence.
  - unfold parseUint.
    rewrite (parse_uint_loop_spec (String c r) 0 m) by (unfold maxUint64; lia).
    split; [intros H; split; [discriminate|exact H]|intros [_ H]; exact H].
Qed.

Lemma parseUint_range s u : parseUint s = inl u -> 0 <= u <= maxUint64.
Proof.
  intros H. apply parseUint_spec in H as [_ [Hd [<- Hm]]].
  split; [apply (decimal_acc_ge s 0 Hd); lia|exact Hm].
Qed.

Lemma parseInt_range s i : parseInt s = inl i -> - 2 ^ 63 <= i < 2 ^ 63.
Proof.
  unfold parseInt. destruct s as [|c r]; [discriminate|]. intros H.
  match type of H with
  | (let '(_, _) := ?m in _) = _ => destruct m as [neg s']
  end.
  destruct (parseUint s') as [un|e] eqn:Hu; [|discriminate].
  apply parseUint_range in Hu.
  destruct neg; simpl in H;
    [destruct (Z.ltb_spec (2 ^ 63) un)|destruct (Z.leb_spec (2 ^ 63) un)];
    inversion H; subst; lia.
Qed.

(** X9. An environment value for an unsigned field is accepted exactly when
    it is a non-empty string of ASCII decimal digits whose value is at most
    [2^64-1]: no sign, no spaces, no underscores, no [0x] prefix. Then
    the field takes that value, reduced modulo [2^w] for a [w]-bit field. *)
Theorem X9_env_uint_accepts_plain_decimal k fv s :
  (snd (setFieldFromString (TUint k) fv s) = None <->
   s <> "" /\ all_digits s = true /\ decimal_acc s 0 <= maxUint64) /\
  (s <> "" -> all_digits s = true -> decimal_acc s 0 <= maxUint64 ->
   setFieldFromString (TUint k) fv s
   = (VUint (wrap_u (uint_bits k) (decimal_acc s 0)), None)).
Proof.
  split.
  - simpl. destruct (parseUint s) as [u|e] eqn:Hu; simpl.
    + apply parseUint_spec in Hu as [Hne [Hd [<- Hm]]]. tauto.
    + split; [discriminate|]. intros [Hne [Hd Hm]].
      assert (parseUint s = inl (decimal_acc s 0)) as Hc
        by (apply parseUint_spec; auto).
      congruence.
  - intros Hne Hd Hm. simpl.
    assert (parseUint s = inl (decimal_acc s 0)) as Hc
      by (apply parseUint_spec; auto).
    rewrite Hc. reflexivity.
Qed.

(** Witness of X9: [9091] into a [uint] field. *)
Lemma X9_env_uint_accepts_plain_decimal_witness :
  setFieldFromString (TUint Uint) (VUint 0) "9091" = (VUint 9091, None).
Proof.
  rewrite (proj2 (X9_env_uint_accepts_plain_decimal Uint (VUint 0) "9091"));
    [reflexivity|discriminate|reflexivity|vm_compute; discriminate].
Defined.

(** X10. For a 64-bit field ([int], [int64], [uint], [uint64]) an
    environment value that parses is stored exactly, without wrap-around,
    and the call succeeds. *)
Theorem X10_env_64bit_exact fv s :
  (forall k i, (k = Int \/ k = Int64) -> parseInt s = inl i ->
     setFieldFromString (TInt k) fv s = (VInt i, None)) /\
  (forall k u, (k = Uint \/ k = Uint64) -> parseUint s = inl u ->
     setFieldFromString (TUint k) fv s = (VUint u, None)).
Proof.
  split.
  - intros k i Hk Hi. simpl. rewrite Hi. pose proof (parseInt_range s i Hi).
    assert (int_bits k = 64) as -> by (destruct Hk; subst; reflexivity).
    rewrite wrap_s_small by (simpl; lia). reflexivity.
  - intros k u Hk Hu. simpl. rewrite Hu. pose proof (parseUint_range s u Hu).
    assert (uint_bits k = 64) as -> by (destruct Hk; subst; reflexivity).
    unfold maxUint64 in *. rewrite wrap_u_small by lia. reflexivity.
Qed.

(** Witness of X10: the bounds of [int64] and [uint64]. *)
Lemma X10_env_64bit_exact_witness :
  setFieldFromString (TInt Int64) (VInt 0) "-9223372036854775808"
  = (VInt (-9223372036854775808), None) /\
  setFieldFromString (TUint Uint64) (VUint 0) "18446744073709551615"
  = (VUint 18446744073709551615, None).
Proof.
  split.
  - apply (proj1 (X10_env_64bit_exact (VInt 0) "-9223372036854775808"));
      [right; reflexivity|vm_compute; reflexivity].
  - apply (proj2 (X10_env_64bit_exact (VUint 0) "18446744073709551615"));
      [right; reflexivity|vm_compute; reflexivity].
Defined.

(** ** Loading the configuration file *)

Lemma search_config_app join files file l1 l2 :
  search_config join files file l1 <> "" ->
  search_config join files file (l1 ++ l2) = search_config join files file l1.
Proof.
  induction l1 as [|q l1 IH]; simpl; [congruence|].
  destruct (files !! join q file); auto.
Qed.

Lemma search_config_first join files file pre p post :
  Forall (fun q => files !! join q file = None) pre ->
  is_Some (files !! join p file) ->
  search_config join files file (pre ++ p :: post) = join p file.
Proof.
  intros Hpre [x Hp]. induction Hpre as [|q pre Hq _ IH]; simpl.
  - rewrite Hp. reflexivity.
  - rewrite Hq. exact IH.
Qed.

Lemma search_config_none join files file paths :
  (forall q, In q paths -> files !! join q file = None) ->
  search_config join files file paths = "".
Proof.
  induction paths as [|q paths IH]; intros H; simpl; [reflexivity|].
  rewrite (H q (or_introl eq_refl)). apply IH. intros q' Hq'. apply H; now right.
Qed.

(** X11. [ReadInConfig] never changes the config name, type or search paths,
    nor the environment settings; whenever it fails for any reason other
    than a YAML parse error, the instance is left exactly as it was. *)
Theorem X11_readinconfig_only_loads_document join yaml st files :
  let r := ReadInConfig join yaml st files in
  configName (fst r) = configName st /\ configType (fst r) = configType st /\
  configPaths (fst r) = configPaths st /\
  envReplacer (dec (fst r)) = envReplacer (dec st) /\
  autoEnv (dec (fst r)) = autoEnv (dec st) /\
  envBindings (dec (fst r)) = envBindings (dec st) /\
  (snd r <> None -> snd r <> Some ErrParseYaml -> fst r = st).
Proof.
  unfold ReadInConfig.
  destruct (String.eqb (configName st) "");
    [simpl; repeat split; auto|].
  destruct (String.eqb (search_config _ _ _ _) "");
    [simpl; repeat split; auto|].
  destruct (files !! _) as [[data|]|]; [|simpl; repeat split; auto..].
  destruct (String.eqb (configType st) "yaml" || String.eqb (configType st) "yml");
    [|simpl; repeat split; auto].
  destruct (yaml data (configValues (dec st))) as [m []]; simpl;
    repeat split; auto; congruence.
Qed.

(** X12. The paths are searched in the order they were added: when the
    config file is absent from every earlier path and present in [p], the
    file in [p] is the one loaded, whatever later paths contain. *)
Theorem X12_readinconfig_first_path_wins join yaml st files pre p post data :
  configName st <> "" ->
  configPaths st = pre ++ p :: post ->
  Forall (fun q => files !! join q (String.append (configName st) (String.append "." (configType st)))
                   = None) pre ->
  files !! join p (String.append (configName st) (String.append "." (configType st))) = Some (Some data) ->
  join p (String.append (configName st) (String.append "." (configType st))) <> "" ->
  configType st = "yaml" \/ configType st = "yml" ->
  ReadInConfig join yaml st files =
  (with_dec st {| envReplacer := envReplacer (dec st);
                  autoEnv := autoEnv (dec st);
                  envBindings := envBindings (dec st);
                  configValues := fst (yaml data (configValues (dec st))) |},
   if snd (yaml data (configValues (dec st))) then Some ErrParseYaml
   else None).
Proof.
  intros Hn Hpaths Hpre Hp Hj Ht. unfold ReadInConfig.
  rewrite (eqb_nonempty _ Hn), Hpaths.
  rewrite (search_config_first _ _ _ _ _ _ Hpre) by (rewrite Hp; eauto).
  apply String.eqb_neq in Hj. rewrite Hj, Hp.
  assert (Hy : (String.eqb (configType st) "yaml"
                || String.eqb (configType st) "yml") = true)
    by (destruct Ht as [-> | ->]; reflexivity).
  rewrite Hy. destruct (yaml data (configValues (dec st))) as [m f].
  reflexivity.
Qed.

(** Witness of X12: with paths [tmp], [etc], [conf], the file of [etc]
    is loaded although [conf] has one too. *)
Lemma X12_readinconfig_first_path_wins_witness :
  ReadInConfig join_slash yaml_text_stub
    (loadingAdder "yaml" ["tmp"; "etc"; "conf"]) testFiles =
  (with_dec (loadingAdder "yaml" ["tmp"; "etc"; "conf"])
     {| envReplacer := None; autoEnv := false; envBindings := ∅;
        configValues := [("app", AStr "etc")] |}, None).
Proof.
  apply (X12_readinconfig_first_path_wins join_slash yaml_text_stub
           (loadingAdder "yaml" ["tmp"; "etc"; "conf"]) testFiles
           ["tmp"] "etc" ["conf"] "etc");
    [discriminate|reflexivity|repeat constructor; vm_compute; reflexivity
    |vm_compute; reflexivity|discriminate|left; reflexivity].
Defined.

(** X13. When no search path holds the config file, [ReadInConfig] reports
    that the file was not found and leaves the instance unchanged, whatever
    the config type (supported or not). *)
Theorem X13_readinconfig_not_found join yaml st files :
  configName st <> "" ->
  (forall q, In q (configPaths st) ->
     files !! join q (String.append (configName st) (String.append "." (configType st))) = None) ->
  ReadInConfig join yaml st files = (st, Some ErrFileNotFound).
Proof.
  intros Hn Hnone. unfold ReadInConfig.
  rewrite (eqb_nonempty _ Hn), (search_config_none _ _ _ _ Hnone).
  reflexivity.
Qed.

(** Witness of X13: type [json] with paths [tmp] and [etc]. *)
Lemma X13_readinconfig_not_found_witness :
  ReadInConfig join_slash yaml_text_stub
    (loadingAdder "json" ["tmp"; "etc"]) testFiles =
  (loadingAdder "json" ["tmp"; "etc"], Some ErrFileNotFound).
Proof.
  apply X13_readinconfig_not_found; [discriminate|].
  intros q [<- | [<- | []]]; vm_compute; reflexivity.
Defined.

(** X14. The config type is compared case-sensitively with [yaml] and
    [yml]: for any other type (such as [Yaml]) [ReadInConfig] always
    returns an error and never loads anything. *)
Theorem X14_readinconfig_type_case_sensitive join yaml st files :
  configType st <> "yaml" -> configType st <> "yml" ->
  fst (ReadInConfig join yaml st files) = st /\
  snd (ReadInConfig join yaml st files) <> None.
Proof.
  intros Hy Hm. unfold ReadInConfig.
  apply String.eqb_neq in Hy, Hm.
  destruct (String.eqb (configName st) ""); [simpl; split; congruence|].
  destruct (String.eqb (search_config _ _ _ _) ""); [simpl; split; congruence|].
  destruct (files !! _) as [[data|]|]; simpl; [rewrite Hy, Hm|..];
    simpl; split; congruence.
Qed.

(** Witness of X14: type [Yaml] with a file [application.yml] in the
    search path, as in [TestReadInConfig_WithYamlTypeFindsYmlFile]. *)
Lemma X14_readinconfig_type_case_sensitive_witness :
  fst (ReadInConfig join_slash yaml_text_stub
         (loadingAdder "Yaml" ["conf"]) testFiles)
  = loadingAdder "Yaml" ["conf"] /\
  snd (ReadInConfig join_slash yaml_text_stub
         (loadingAdder "Yaml" ["conf"]) testFiles) <> None.
Proof.
  apply X14_readinconfig_type_case_sensitive; discriminate.
Defined.

(** X15. Adding a search path after one that already holds the config file
    changes nothing in what [ReadInConfig] loads or returns. *)
Theorem X15_addconfigpath_after_hit join yaml st files p :
  search_config join files (String.append (configName st) (String.append "." (configType st)))
    (configPaths st) <> "" ->
  ReadInConfig join yaml (AddConfigPath st p) files =
  let '(st', e) := ReadInConfig join yaml st files in
  (AddConfigPath st' p, e).
Proof.
  intros Hs. unfold ReadInConfig. simpl.
  rewrite (search_config_app _ _ _ _ _ Hs).
  destruct (String.eqb (configName st) ""); [reflexivity|].
  destruct (String.eqb (search_config _ _ _ _) ""); [reflexivity|].
  destruct (files !! _) as [[data|]|]; [|reflexivity..].
  destruct (String.eqb (configType st) "yaml" || String.eqb (configType st) "yml");
    [|reflexivity].
  destruct (yaml data (configValues (dec st))); reflexivity.
Qed.

(** Witness of X15: adding [conf] after [etc]. *)
Lemma X15_addconfigpath_after_hit_witness :
  ReadInConfig join_slash yaml_text_stub
    (AddConfigPath (loadingAdder "yaml" ["etc"]) "conf") testFiles =
  let '(st', e) := ReadInConfig join_slash yaml_text_stub
                     (loadingAdder "yaml" ["etc"]) testFiles in
  (AddConfigPath st' "conf", e).
Proof.
  apply X15_addconfigpath_after_hit. vm_compute. discriminate.
Defined.

(** ** Decoding keeps targets well-typed *)

Lemma wrap_s_ok w z : 0 < w -> in_int_range w (wrap_s w z) = true.
Proof.
  intros Hw. unfold in_int_range, wrap_s.
  assert (H2 : 2 ^ w = 2 * 2 ^ (w - 1))
    by (rewrite <- Z.pow_succ_r by lia; f_equal; lia).
  assert (0 < 2 ^ (w - 1)) by (apply Z.pow_pos_nonneg; lia).
  pose proof (Z.mod_pos_bound z (2 ^ w) ltac:(lia)).
  destruct (Z.leb_spec (2 ^ (w - 1)) (z mod 2 ^ w));
    apply andb_true_iff; split; [apply Z.leb_le|apply Z.ltb_lt|
                                 apply Z.leb_le|apply Z.ltb_lt]; lia.
Qed.

Lemma wrap_u_ok w z : 0 <= w -> in_uint_range w (wrap_u w z) = true.
Proof.
  intros Hw. unfold in_uint_range, wrap_u.
  assert (0 < 2 ^ w) by (apply Z.pow_pos_nonneg; lia).
  pose proof (Z.mod_pos_bound z (2 ^ w) ltac:(lia)).
  apply andb_true_iff; split; [apply Z.leb_le|apply Z.ltb_lt]; lia.
Qed.

Lemma wrap_int_ok k z : in_int_range (int_bits k) (wrap_s (int_bits k) z) = true.
Proof. apply wrap_s_ok. pose proof (int_bits_range k). lia. Qed.

Lemma wrap_uint_ok k z :
  in_uint_range (uint_bits k) (wrap_u (uint_bits k) z) = true.
Proof. apply wrap_u_ok. pose proof (uint_bits_range k). lia. Qed.

Lemma zero_val_ok t : val_ok t (zero_val t) = true.
Proof.
  apply (ty_mut (fun t => val_ok t (zero_val t) = true)
                (fun fs => fields_ok fs (zero_fields fs) = true)
                (fun f => match f with
                          | Field _ _ _ t => val_ok t (zero_val t) = true
                          end)); simpl; auto.
  - intros k. destruct k; reflexivity.
  - intros k. destruct k; reflexivity.
  - intros f Hf rest Hr. destruct f. simpl in *. rewrite Hf, Hr. reflexivity.
Qed.

Lemma slice_elem_ok e item : any_ok item = true -> val_ok e (slice_elem e item) = true.
Proof.
  intros Hi. destruct e as [|k|k| |e'|fs|]; simpl.
  - destruct item; reflexivity.
  - destruct k; simpl; try reflexivity;
      destruct item; simpl in *; try reflexivity; try exact Hi;
      apply (wrap_s_ok 64); lia.
  - destruct k; reflexivity.
  - reflexivity.
  - reflexivity.
  - apply (zero_val_ok (TStruct fs)).
  - reflexivity.
Qed.

Lemma doc_lookup_ok k m x :
  doc_ok m = true -> doc_lookup k m = Some x -> any_ok x = true.
Proof.
  unfold doc_ok. induction m as [|[k' y] m IH]; simpl; [discriminate|].
  intros H. apply andb_true_iff in H as [H1 H2].
  destruct (String.eqb k k'); [intros [= <-]; exact H1|apply IH; exact H2].
Qed.

Lemma setFieldFromString_ok t fv s :
  val_ok t fv = true -> val_ok t (fst (setFieldFromString t fv s)) = true.
Proof.
  intros H. destruct t; simpl; auto.
  - destruct (parseInt s); simpl; [apply wrap_int_ok|exact H].
  - destruct (parseUint s); simpl; [apply wrap_uint_ok|exact H].
Qed.

Lemma setFieldValue_ok a env : forall t fv value key,
  any_ok value = true -> val_ok t fv = true ->
  val_ok t (fst (setFieldValue a env t fv value key)) = true.
Proof.
  apply (ty_mut
    (fun t => forall fv value key, any_ok value = true -> val_ok t fv = true ->
       val_ok t (fst (setFieldValue a env t fv value key)) = true)
    (fun fs => forall data prefix vs, doc_ok data = true ->
       fields_ok fs vs = true ->
       fields_ok fs (fst (unmarshalFields a env data prefix fs vs)) = true)
    (fun f => forall data prefix fv, doc_ok data = true -> field_ok f fv = true ->
       field_ok f (fst (fieldStep a env data prefix f fv)) = true)).
  - (* TString *)
    intros fv value key Hv Hfv. destruct value; simpl; auto.
  - (* TInt *)
    intros k fv value key Hv Hfv. destruct value; simpl; auto; apply wrap_int_ok.
  - (* TUint *)
    intros k fv value key Hv Hfv.
    destruct value; simpl; auto;
      try (destruct (0 <=? z); simpl; auto; apply wrap_uint_ok);
      try (destruct (Qle_bool 0 q); simpl; auto);
      apply wrap_uint_ok.
  - (* TBool *)
    intros fv value key Hv Hfv. destruct value; simpl; auto.
  - (* TSlice *)
    intros e _ fv value key Hv Hfv. destruct value; simpl; auto.
    simpl in Hv. apply forallb_forall. intros x Hx.
    apply in_map_iff in Hx as [item [<- Hitem]].
    apply slice_elem_ok. exact (proj1 (forallb_forall _ _) Hv item Hitem).
  - (* TStruct *)
    intros fs IH fv value key Hv Hfv. destruct value; simpl; auto.
    destruct fv; simpl; auto.
    specialize (IH m key vs Hv Hfv).
    destruct (unmarshalFields a env m key fs vs) as [vs' err]. exact IH.
  - (* TOther *)
    intros fv value key Hv Hfv. destruct value; simpl; auto.
  - (* FNil *)
    intros data prefix vs Hd Hvs. exact Hvs.
  - (* FCons *)
    intros f IHf rest IHr data prefix vs Hd Hvs.
    destruct vs as [|fv vs0]; [discriminate|].
    simpl in Hvs. apply andb_true_iff in Hvs as [H1 H2].
    rewrite unmarshalFields_cons.
    specialize (IHf data prefix fv Hd H1).
    destruct (fieldStep a env data prefix f fv) as [fv' [e|]]; simpl in IHf.
    + simpl. rewrite IHf, H2. reflexivity.
    + specialize (IHr data prefix vs0 Hd H2).
      destruct (unmarshalFields a env data prefix rest vs0) as [vs' err'].
      simpl in *. rewrite IHf, IHr. reflexivity.
  - (* Field *)
    intros name tag ex t IHt data prefix fv Hd Hfv. simpl in Hfv |- *.
    destruct ex; simpl; [|exact Hfv].
    destruct (String.eqb (getEnvValue a env _) ""); simpl.
    + destruct (doc_lookup (field_name name tag) data) as [cv|] eqn:El;
        simpl; [|exact Hfv].
      apply IHt; [exact (doc_lookup_ok _ _ _ Hd El)|exact Hfv].
    + apply setFieldFromString_ok. exact Hfv.
Qed.

(** X16. Decoding keeps the target well-typed: when the loaded document
    holds only 64-bit integers (as [yaml.Unmarshal] produces) and the
    pointed-to value is well-typed, [Unmarshal] leaves a pointer to a
    well-typed value of the same type, every integer field inside the range
    of its width, whatever the environment. *)
Theorem X16_unmarshal_keeps_types a env t v :
  doc_ok (configValues a) = true -> val_ok t v = true ->
  exists v', fst (Unmarshal a env (TgtPtr t v)) = TgtPtr t v' /\
             val_ok t v' = true.
Proof.
  intros Hd Hv. unfold Unmarshal, unmarshalWithPath.
  destruct t; try (eexists; split; [reflexivity|exact Hv]).
  destruct v; try (eexists; split; [reflexivity|exact Hv]).
  pose proof (setFieldValue_ok a env (TStruct fs) (VStruct vs)
                (AMap (configValues a)) "" Hd Hv) as H.
  simpl in H.
  destruct (unmarshalFields a env (configValues a) "" fs vs) as [vs' err].
  eexists; split; [reflexivity|exact H].
Qed.

(** Witness of X16: the configuration of
    [TestAutomaticEnvOverrideFromYAMLDefaults], from its zero value. *)
Lemma X16_unmarshal_keeps_types_witness :
  exists v', fst (Unmarshal (autoEnvAdder yamlDefaults)
                   {[ "HTTP_PORT" := "9091" ]}
                   (TgtPtr testConfig (zero_val testConfig)))
             = TgtPtr testConfig v' /\ val_ok testConfig v' = true.
Proof.
  apply X16_unmarshal_keeps_types; vm_compute; reflexivity.
Defined.

(** ** Edge cases of the scalar setters *)


(** X18. A negative number goes into an unsigned field differently by
    source: a negative document value ([int], [int64] or [float64]) is
    skipped without error and the field keeps its value, while an
    environment value starting with [-] is a syntax error. *)
Theorem X18_negative_into_unsigned a env k fv key v q s :
  v < 0 -> (q < 0)%Q ->
  setFieldValue a env (TUint k) fv (AInt v) key = (fv, None) /\
  setFieldValue a env (TUint k) fv (AInt64 v) key = (fv, None) /\
  setFieldValue a env (TUint k) fv (AFloat q) key = (fv, None) /\
  setFieldFromString (TUint k) fv (String "-" s) = (fv, Some ErrSyntax).
Proof.
  intros Hv Hq. simpl.
  destruct (Z.leb_spec 0 v); [lia|].
  assert (Qle_bool 0 q = false) as ->.
  { destruct (Qle_bool 0 q) eqn:E; [|reflexivity].
    apply Qle_bool_iff in E. exfalso. exact (Qlt_not_le _ _ Hq E). }
  repeat split; reflexivity.
Qed.

(** Witness of X18: [-1], [-0.5] and [-1] into a [uint] field. *)
Lemma X18_negative_into_unsigned_witness :
  setFieldValue (autoEnvAdder []) ∅ (TUint Uint) (VUint 7) (AInt (-1)) "n"
  = (VUint 7, None) /\
  setFieldValue (autoEnvAdder []) ∅ (TUint Uint) (VUint 7) (AInt64 (-1)) "n"
  = (VUint 7, None) /\
  setFieldValue (autoEnvAdder []) ∅ (TUint Uint) (VUint 7)
    (AFloat (-1 # 2)) "n" = (VUint 7, None) /\
  setFieldFromString (TUint Uint) (VUint 7) (String "-" "1")
  = (VUint 7, Some ErrSyntax).
Proof.
  apply (X18_negative_into_unsigned _ _ Uint (VUint 7) "n" (-1) (-1 # 2) "1");
    [lia|reflexivity].
Defined.

(** ** Unexported fields *)

Lemma unmarshalFields_unexported a env data prefix fs : forall vs,
  length (fst (unmarshalFields a env data prefix fs vs)) = length vs /\
  forall i n tg t, nth_error (fields_list fs) i = Some (Field n tg false t) ->
    nth_error (fst (unmarshalFields a env data prefix fs vs)) i
    = nth_error vs i.
Proof.
  induction fs as [|f rest IH]; intros vs.
  - split; [reflexivity|]. intros [|i] n tg t H; discriminate H.
  - destruct vs as [|fv vs0]; [split; reflexivity|].
    rewrite unmarshalFields_cons.
    destruct (fieldStep a env data prefix f fv) as [fv' [e|]] eqn:E.
    + split; [reflexivity|]. intros [|i] n tg t H; simpl in H |- *.
      * injection H as ->. discriminate E.
      * reflexivity.
    + specialize (IH vs0).
      destruct (unmarshalFields a env data prefix rest vs0) as [vs' err'].
      simpl in IH |- *. destruct IH as [Hl IH].
      split; [rewrite Hl; reflexivity|]. intros [|i] n tg t H; simpl in H |- *.
      * injection H as ->. simpl in E. inversion E. reflexivity.
      * exact (IH i n tg t H).
Qed.

(** X19. [Unmarshal] on a pointer to a struct keeps one value per field and
    never writes an unexported field ([CanSet] is false): whatever the
    document and the environment hold for its key, its value after the call
    is the value before. *)
Theorem X19_unexported_fields_untouched a env fs vs :
  match fst (Unmarshal a env (TgtPtr (TStruct fs) (VStruct vs))) with
  | TgtPtr _ (VStruct vs') =>
      length vs' = length vs /\
      forall i n tg t, nth_error (fields_list fs) i = Some (Field n tg false t) ->
        nth_error vs' i = nth_error vs i
  | _ => False
  end.
Proof.
  unfold Unmarshal, unmarshalWithPath.
  pose proof (unmarshalFields_unexported a env (configValues a) "" fs vs) as H.
  destruct (unmarshalFields a env (configValues a) "" fs vs) as [vs' err].
  exact H.
Qed.
